(** * Endpoint identifier resolution (pkg/endpoint/identifiers.go)

    A shallow embedding of the identifier accessors of the endpoint
    record: the derivations that read a field snapshot (CNI attachment
    ID, short container ID, CEP name, namespaced names, the aggregate
    identifier map) and the accessors that wrap them in the endpoint's
    read/write lock and liveness gate.

    Go strings are byte sequences: [len] counts bytes and [s[:n]] slices
    bytes.  They are embedded as [string], whose characters are 8-bit
    [ascii] values, so every length and prefix below is counted in bytes
    exactly as the Go code counts them. *)

From Stdlib Require Import String Ascii Bool Arith Lia.
From stdpp Require Import base decidable countable gmap strings.

Local Open Scope string_scope.

(** ** Strings *)

(** Go's [s != ""]. *)
Definition nonempty (s : string) : bool :=
  match s with
  | EmptyString => false
  | String _ _ => true
  end.

(** Go's [len(s)], a byte count. *)
Definition len (s : string) : nat := String.length s.

(** Go's slice expression [s[:n]], used only with [n <= len(s)]. *)
Definition slice_to (s : string) (n : nat) : string := String.substring 0 n s.

(** ** Data model *)

Module id.

(** Modelled from the spec: the identifier-namespace prefixes of package
    [pkg/endpoint/id] are not part of the given sources.  The spec (§3,
    §6) fixes them as a closed enumeration of eight pairwise distinct
    namespaces, which is what this type records. *)
Inductive PrefixType : Set :=
| CNIAttachmentIdPrefix
| ContainerIdPrefix
| DockerEndpointPrefix
| IPv4Prefix
| IPv6Prefix
| ContainerNamePrefix
| PodNamePrefix
| CEPNamePrefix.

#[global] Instance PrefixType_eq_dec : EqDecision PrefixType.
Proof. solve_decision. Defined.

Definition PrefixType_to_nat (p : PrefixType) : nat :=
  match p with
  | CNIAttachmentIdPrefix => 0
  | ContainerIdPrefix => 1
  | DockerEndpointPrefix => 2
  | IPv4Prefix => 3
  | IPv6Prefix => 4
  | ContainerNamePrefix => 5
  | PodNamePrefix => 6
  | CEPNamePrefix => 7
  end.

Definition PrefixType_of_nat (n : nat) : option PrefixType :=
  match n with
  | 0 => Some CNIAttachmentIdPrefix
  | 1 => Some ContainerIdPrefix
  | 2 => Some DockerEndpointPrefix
  | 3 => Some IPv4Prefix
  | 4 => Some IPv6Prefix
  | 5 => Some ContainerNamePrefix
  | 6 => Some PodNamePrefix
  | 7 => Some CEPNamePrefix
  | _ => None
  end.

#[global] Instance PrefixType_countable : Countable PrefixType.
Proof.
  apply (inj_countable PrefixType_to_nat PrefixType_of_nat).
  intros []; reflexivity.
Defined.

(** [type Identifiers map[PrefixType]string] *)
Abbreviation Identifiers := (gmap PrefixType string).

(** Every prefix of the enumeration, in the order IdentifiersLocked
    visits them. *)
Definition all_prefixes : list PrefixType :=
  [ CNIAttachmentIdPrefix; ContainerIdPrefix; DockerEndpointPrefix;
    IPv4Prefix; IPv6Prefix; ContainerNamePrefix; PodNamePrefix;
    CEPNamePrefix ].

End id.

(** [netip.Addr] of the Go standard library, seen through the two
    methods the accessors call: [IsValid] and [String]. *)
Record Addr : Set := mkAddr {
  Addr_IsValid : bool;
  Addr_String : string
}.

(** Modelled from the spec: the endpoint's liveness is owned by lifecycle
    code outside the given sources; the spec (§4.1) gives it two states,
    alive and not-alive. *)
Inductive Liveness : Set := Alive | NotAlive.

(** Modelled from the spec: the endpoint's read/write mutex lives in the
    lock helpers outside the given sources.  Following §4.1 and §5 it is
    the number of shared holders and whether the exclusive holder is
    present. *)
Record RWMutex : Set := mkRWMutex {
  readers : nat;
  writer : bool
}.

(** The fields of [Endpoint] that identifiers.go touches. *)
Record Endpoint : Set := mkEndpoint {
  containerID : string;
  containerIfName : string;
  containerName : string;
  dockerEndpointID : string;
  K8sNamespace : string;
  K8sPodName : string;
  IPv4 : Addr;
  IPv6 : Addr;
  ciliumEndpointUID : string;
  disableLegacyIdentifiers : bool;
  mutex : RWMutex;
  state : Liveness
}.

(** ** Identifier resolver: the methods that take no lock *)

(** [GetK8sPodName], lines 21-26. *)
Definition GetK8sPodName (e : Endpoint) : string :=
  let k8sPodName := K8sPodName e in
  k8sPodName.

(** [GetK8sNamespaceAndPodName], lines 39-42. *)
Definition GetK8sNamespaceAndPodName (e : Endpoint) : string :=
  K8sNamespace e ++ "/" ++ K8sPodName e.

(** [GetK8sCEPName], lines 47-56. *)
Definition GetK8sCEPName (e : Endpoint) : string :=
  if disableLegacyIdentifiers e && nonempty (K8sPodName e)
     && nonempty (containerIfName e)
  then K8sPodName e ++ "-" ++ containerIfName e
  else K8sPodName e.

(** [GetK8sNamespaceAndCEPName], lines 60-63. *)
Definition GetK8sNamespaceAndCEPName (e : Endpoint) : string :=
  K8sNamespace e ++ "/" ++ GetK8sCEPName e.

(** [getCNIAttachmentIDLocked], lines 66-71. *)
Definition getCNIAttachmentIDLocked (e : Endpoint) : string :=
  if nonempty (containerIfName e)
  then containerID e ++ ":" ++ containerIfName e
  else containerID e.

(** [getShortContainerIDLocked], lines 95-109.  The receiver is a pointer
    that the method compares with nil, hence the [option]. *)
Definition getShortContainerIDLocked (e : option Endpoint) : string :=
  match e with
  | None => ""
  | Some e =>
      let cid := containerID e in
      let caplen := 10 in
      if (len cid <=? caplen)%nat then cid else slice_to cid caplen
  end.

(** [GetDockerEndpointID], lines 111-114. *)
Definition GetDockerEndpointID (e : Endpoint) : string :=
  dockerEndpointID e.

(** [IdentifiersLocked], lines 118-153. *)
Definition IdentifiersLocked (e : Endpoint) : id.Identifiers :=
  let refs : id.Identifiers := ∅ in
  let refs :=
    let cniID := getCNIAttachmentIDLocked e in
    if nonempty cniID then <[id.CNIAttachmentIdPrefix := cniID]> refs else refs in
  let refs :=
    if negb (disableLegacyIdentifiers e) && nonempty (containerID e)
    then <[id.ContainerIdPrefix := containerID e]> refs else refs in
  let refs :=
    if nonempty (dockerEndpointID e)
    then <[id.DockerEndpointPrefix := dockerEndpointID e]> refs else refs in
  let refs :=
    if Addr_IsValid (IPv4 e)
    then <[id.IPv4Prefix := Addr_String (IPv4 e)]> refs else refs in
  let refs :=
    if Addr_IsValid (IPv6 e)
    then <[id.IPv6Prefix := Addr_String (IPv6 e)]> refs else refs in
  let refs :=
    if negb (disableLegacyIdentifiers e) && nonempty (containerName e)
    then <[id.ContainerNamePrefix := containerName e]> refs else refs in
  let refs :=
    let podName := GetK8sNamespaceAndPodName e in
    if negb (disableLegacyIdentifiers e) && nonempty podName
    then <[id.PodNamePrefix := podName]> refs else refs in
  let refs :=
    let cepName := GetK8sNamespaceAndCEPName e in
    if nonempty cepName then <[id.CEPNamePrefix := cepName]> refs else refs in
  refs.

(** ** Concurrency guard *)

(** The single error kind of this file, [ErrNotAlive]. *)
Inductive Error : Set := ErrNotAlive.

Definition with_mutex (e : Endpoint) (m : RWMutex) : Endpoint :=
  mkEndpoint (containerID e) (containerIfName e) (containerName e)
    (dockerEndpointID e) (K8sNamespace e) (K8sPodName e) (IPv4 e) (IPv6 e)
    (ciliumEndpointUID e) (disableLegacyIdentifiers e) m (state e).

Definition with_ciliumEndpointUID (e : Endpoint) (uid : string) : Endpoint :=
  mkEndpoint (containerID e) (containerIfName e) (containerName e)
    (dockerEndpointID e) (K8sNamespace e) (K8sPodName e) (IPv4 e) (IPv6 e)
    uid (disableLegacyIdentifiers e) (mutex e) (state e).

(** Modelled from the spec: [unconditionalRLock], the unconditional shared
    acquisition of §4.1; it never fails and succeeds in either liveness
    state.  Waiting for an exclusive holder is outside this sequential
    model. *)
Definition unconditionalRLock (e : Endpoint) : Endpoint :=
  with_mutex e (mkRWMutex (S (readers (mutex e))) (writer (mutex e))).

(** Modelled from the spec: [runlock], the release of a shared
    acquisition (§4.1). *)
Definition runlock (e : Endpoint) : Endpoint :=
  with_mutex e (mkRWMutex (Nat.pred (readers (mutex e))) (writer (mutex e))).

(** Modelled from the spec: [unconditionalLock], the unconditional
    exclusive acquisition of §4.1. *)
Definition unconditionalLock (e : Endpoint) : Endpoint :=
  with_mutex e (mkRWMutex (readers (mutex e)) true).

(** Modelled from the spec: [unlock], the release of the exclusive
    acquisition (§4.1). *)
Definition unlock (e : Endpoint) : Endpoint :=
  with_mutex e (mkRWMutex (readers (mutex e)) false).

(** Modelled from the spec: [rlockAlive], the liveness-gated shared
    acquisition of §4.1.  On an alive endpoint it acquires and reports no
    error; on a not-alive endpoint it reports [ErrNotAlive] instead of
    acquiring. *)
Definition rlockAlive (e : Endpoint) : option Error * Endpoint :=
  match state e with
  | Alive => (None, unconditionalRLock e)
  | NotAlive => (Some ErrNotAlive, e)
  end.

(** ** Accessor surface: the methods that take the lock

    Each accessor is written in state-passing style: it receives the
    endpoint record and returns its result together with the record as
    the call leaves it.  A deferred [runlock] runs after the returned
    expression has been evaluated. *)

(** [GetContainerName], lines 13-17. *)
Definition GetContainerName (e : Endpoint) : string * Endpoint :=
  let e := unconditionalRLock e in
  let r := containerName e in
  (r, runlock e).

(** [GetCNIAttachmentID], lines 74-78. *)
Definition GetCNIAttachmentID (e : Endpoint) : string * Endpoint :=
  let e := unconditionalRLock e in
  let r := getCNIAttachmentIDLocked e in
  (r, runlock e).

(** [GetContainerID], lines 81-86. *)
Definition GetContainerID (e : Endpoint) : string * Endpoint :=
  let e := unconditionalRLock e in
  let cID := containerID e in
  let e := runlock e in
  (cID, e).

(** [GetShortContainerID], lines 89-93.  The receiver is the pointer that
    [getShortContainerIDLocked] compares with nil.  On a nil receiver
    there is no record whose guard could be acquired; the acquisition of
    §4.1 never fails, so the call proceeds to the derivation. *)
Definition GetShortContainerID (e : option Endpoint)
    : string * option Endpoint :=
  let e := unconditionalRLock <$> e in
  let r := getShortContainerIDLocked e in
  (r, runlock <$> e).

(** [Identifiers], lines 156-163.  The Go result pair [(id.Identifiers,
    error)] is a pair of options: [None] is the nil map, respectively the
    nil error. *)
Definition Identifiers (e : Endpoint)
    : (option id.Identifiers * option Error) * Endpoint :=
  match rlockAlive e with
  | (Some err, e) => ((None, Some err), e)
  | (None, e) =>
      let r := IdentifiersLocked e in
      ((Some r, None), runlock e)
  end.

(** [GetCiliumEndpointUID], lines 166-170. *)
Definition GetCiliumEndpointUID (e : Endpoint) : string * Endpoint :=
  let e := unconditionalRLock e in
  let r := ciliumEndpointUID e in
  (r, runlock e).

(** [SetCiliumEndpointUID], lines 173-177. *)
Definition SetCiliumEndpointUID (uid : string) (e : Endpoint) : Endpoint :=
  let e := unconditionalLock e in
  let e := with_ciliumEndpointUID e uid in
  unlock e.

(** ** The accessor surface as a whole *)

Section Surface.

(** [StringID], the endpoint's numeric ID rendered as a string, belongs
    to the endpoint's core file and is taken as given. *)
Variable StringID : Endpoint -> string.

(** [HumanString], lines 29-35. *)
Definition HumanString (e : Endpoint) : string :=
  let cep := GetK8sNamespaceAndCEPName e in
  if nonempty cep then cep else StringID e.

(** The exported and package-level operations of identifiers.go. *)
Inductive Operation : Set :=
| CallGetContainerName
| CallGetK8sPodName
| CallHumanString
| CallGetK8sNamespaceAndPodName
| CallGetK8sCEPName
| CallGetK8sNamespaceAndCEPName
| CallGetCNIAttachmentIDLocked
| CallGetCNIAttachmentID
| CallGetContainerID
| CallGetShortContainerID
| CallGetShortContainerIDLocked
| CallGetDockerEndpointID
| CallIdentifiersLocked
| CallIdentifiers
| CallGetCiliumEndpointUID
| CallSetCiliumEndpointUID (uid : string).

(** What an operation hands back: a string, an identifier map (possibly
    the nil map), or nothing. *)
Inductive Value : Set :=
| VString (s : string)
| VIdentifiers (refs : option id.Identifiers)
| VUnit.

(** How a call ends: it returns a value, an error value (nil for the
    operations whose Go signature has no error result) and leaves the
    receiver in some state, or it panics. *)
Inductive Outcome : Set :=
| Returned (v : Value) (err : option Error) (e : option Endpoint)
| Panicked.

(** A method that selects a field of its receiver panics on a nil
    receiver (Go's nil-pointer dereference). *)
Definition deref (e : option Endpoint) (k : Endpoint -> Outcome) : Outcome :=
  match e with
  | Some e => k e
  | None => Panicked
  end.

Definition returns_string (r : string * Endpoint) : Outcome :=
  Returned (VString (fst r)) None (Some (snd r)).

(** One call of an operation on a receiver pointer. *)
Definition call (op : Operation) (e : option Endpoint) : Outcome :=
  match op with
  | CallGetContainerName =>
      deref e (fun e => returns_string (GetContainerName e))
  | CallGetK8sPodName =>
      deref e (fun e => returns_string (GetK8sPodName e, e))
  | CallHumanString =>
      deref e (fun e => returns_string (HumanString e, e))
  | CallGetK8sNamespaceAndPodName =>
      deref e (fun e => returns_string (GetK8sNamespaceAndPodName e, e))
  | CallGetK8sCEPName =>
      deref e (fun e => returns_string (GetK8sCEPName e, e))
  | CallGetK8sNamespaceAndCEPName =>
      deref e (fun e => returns_string (GetK8sNamespaceAndCEPName e, e))
  | CallGetCNIAttachmentIDLocked =>
      deref e (fun e => returns_string (getCNIAttachmentIDLocked e, e))
  | CallGetCNIAttachmentID =>
      deref e (fun e => returns_string (GetCNIAttachmentID e))
  | CallGetContainerID =>
      deref e (fun e => returns_string (GetContainerID e))
  | CallGetShortContainerID =>
      let r := GetShortContainerID e in
      Returned (VString (fst r)) None (snd r)
  | CallGetShortContainerIDLocked =>
      Returned (VString (getShortContainerIDLocked e)) None e
  | CallGetDockerEndpointID =>
      deref e (fun e => returns_string (GetDockerEndpointID e, e))
  | CallIdentifiersLocked =>
      deref e (fun e =>
        Returned (VIdentifiers (Some (IdentifiersLocked e))) None (Some e))
  | CallIdentifiers =>
      deref e (fun e =>
        let r := Identifiers e in
        Returned (VIdentifiers (fst (fst r))) (snd (fst r)) (Some (snd r)))
  | CallGetCiliumEndpointUID =>
      deref e (fun e => returns_string (GetCiliumEndpointUID e))
  | CallSetCiliumEndpointUID uid =>
      deref e (fun e =>
        Returned VUnit None (Some (SetCiliumEndpointUID uid e)))
  end.

(** A call fails when it panics or returns a non-nil error. *)
Definition fails (o : Outcome) : bool :=
  match o with
  | Returned _ None _ => false
  | Returned _ (Some _) _ => true
  | Panicked => true
  end.

End Surface.

#[global] Instance Operation_eq_dec : EqDecision Operation.
Proof. solve_decision. Defined.

(** ** The inclusion rules as the specification words them (§4.2) *)

(** Whether a namespace applies to the endpoint. *)
Definition inclusion_rule (e : Endpoint) (p : id.PrefixType) : bool :=
  match p with
  | id.CNIAttachmentIdPrefix => nonempty (getCNIAttachmentIDLocked e)
  | id.ContainerIdPrefix =>
      negb (disableLegacyIdentifiers e) && nonempty (containerID e)
  | id.DockerEndpointPrefix => nonempty (dockerEndpointID e)
  | id.IPv4Prefix => Addr_IsValid (IPv4 e)
  | id.IPv6Prefix => Addr_IsValid (IPv6 e)
  | id.ContainerNamePrefix =>
      negb (disableLegacyIdentifiers e) && nonempty (containerName e)
  | id.PodNamePrefix =>
      negb (disableLegacyIdentifiers e)
      && nonempty (GetK8sNamespaceAndPodName e)
  | id.CEPNamePrefix => nonempty (GetK8sNamespaceAndCEPName e)
  end.

(** The value a namespace carries when it applies. *)
Definition derived_value (e : Endpoint) (p : id.PrefixType) : string :=
  match p with
  | id.CNIAttachmentIdPrefix => getCNIAttachmentIDLocked e
  | id.ContainerIdPrefix => containerID e
  | id.DockerEndpointPrefix => dockerEndpointID e
  | id.IPv4Prefix => Addr_String (IPv4 e)
  | id.IPv6Prefix => Addr_String (IPv6 e)
  | id.ContainerNamePrefix => containerName e
  | id.PodNamePrefix => GetK8sNamespaceAndPodName e
  | id.CEPNamePrefix => GetK8sNamespaceAndCEPName e
  end.

(** The field snapshot of the worked example of §8. *)
Definition example_endpoint (uid : string) (m : RWMutex) (s : Liveness)
    (txt4 txt6 : string) : Endpoint :=
  mkEndpoint "abcdefghijklmnop" "eth0" "" "" "ns1" "pod1"
    (mkAddr false txt4) (mkAddr false txt6) uid true m s.

(** ** Auxiliary notions used to state properties *)

(** Whether the byte [c] occurs in [s]. *)
Fixpoint contains_byte (c : ascii) (s : string) : bool :=
  match s with
  | EmptyString => false
  | String d s' => Ascii.eqb c d || contains_byte c s'
  end.

(** The same endpoint with the legacy opt-out set to [b]. *)
Definition with_disableLegacyIdentifiers (e : Endpoint) (b : bool)
    : Endpoint :=
  mkEndpoint (containerID e) (containerIfName e) (containerName e)
    (dockerEndpointID e) (K8sNamespace e) (K8sPodName e) (IPv4 e) (IPv6 e)
    (ciliumEndpointUID e) b (mutex e) (state e).

(** * Properties *)

(** ** Facts about Go strings *)

Lemma nonempty_true_iff (s : string) : nonempty s = true <-> s <> "".
Proof. destruct s; simpl; split; congruence. Qed.

Lemma nonempty_false_iff (s : string) : nonempty s = false <-> s = "".
Proof. destruct s; simpl; split; congruence. Qed.

Lemma nonempty_len (s : string) : nonempty s = true <-> 0 < len s.
Proof. destruct s; simpl; split; (congruence || lia). Qed.

(** The two defining equations of string concatenation. *)
Lemma append_empty (b : string) : "" ++ b = b.
Proof. reflexivity. Qed.

Lemma append_String (c : ascii) (a b : string) :
  String c a ++ b = String c (a ++ b).
Proof. reflexivity. Qed.

Lemma len_append (a b : string) : len (a ++ b) = len a + len b.
Proof.
  unfold len. induction a as [|c a IH]; [reflexivity|].
  rewrite append_String. simpl. now rewrite IH.
Qed.

(** A concatenation with a non-empty right part is never the empty
    string, whatever stands on the left. *)
Lemma nonempty_append_r (a b : string) :
  nonempty b = true -> nonempty (a ++ b) = true.
Proof. destruct a; [now rewrite append_empty | reflexivity]. Qed.

(** Appending a non-empty suffix changes a string. *)
Lemma append_nonempty_neq (a b : string) :
  nonempty b = true -> a ++ b <> a.
Proof.
  intros Hb Heq. apply nonempty_len in Hb.
  apply (f_equal len) in Heq. rewrite len_append in Heq. lia.
Qed.

(** Slicing [s[:n]] within bounds splits [s] into the slice, of length
    exactly [n], and the rest. *)
Lemma slice_to_split (n : nat) : forall s : string,
  n <= len s ->
  len (slice_to s n) = n /\ exists rest, s = slice_to s n ++ rest.
Proof.
  unfold len, slice_to. induction n as [|n IH]; intros s Hn.
  - destruct s; simpl; split; eauto.
  - destruct s as [|c s]; simpl in *; [lia|].
    destruct (IH s) as [Hl [rest Hr]]; [lia|].
    split; [now rewrite Hl|].
    exists rest. rewrite append_String. now f_equal.
Qed.

(** A prefix of a given length is unique. *)
Lemma prefix_unique : forall (a b ra rb : string),
  a ++ ra = b ++ rb -> len a = len b -> a = b.
Proof.
  unfold len. induction a as [|c a IH]; intros [|d b] ra rb H Hl;
    simpl in Hl; try discriminate; [reflexivity|].
  rewrite !append_String in H. injection H as -> H.
  f_equal. eapply IH; eauto.
Qed.

(** Releasing a shared acquisition restores the guard. *)
Lemma runlock_unconditionalRLock (e : Endpoint) :
  runlock (unconditionalRLock e) = e.
Proof. destruct e as [? ? ? ? ? ? ? ? ? ? [r w] ?]. reflexivity. Qed.

(** The guard operations leave the identifier fields alone. *)
Lemma IdentifiersLocked_with_mutex (e : Endpoint) (m : RWMutex) :
  IdentifiersLocked (with_mutex e m) = IdentifiersLocked e.
Proof. reflexivity. Qed.

(** ** The derivations on concrete snapshots *)

Example short_id_of_short_container_id :
  getShortContainerIDLocked
    (Some (mkEndpoint "abc" "" "" "" "" "" (mkAddr false "") (mkAddr false "")
             "" false (mkRWMutex 0 false) Alive)) = "abc".
Proof. reflexivity. Qed.

Example short_id_of_ten_bytes :
  getShortContainerIDLocked
    (Some (mkEndpoint "0123456789" "" "" "" "" "" (mkAddr false "")
             (mkAddr false "") "" false (mkRWMutex 0 false) Alive))
  = "0123456789".
Proof. reflexivity. Qed.

Example short_id_of_eleven_bytes :
  getShortContainerIDLocked
    (Some (mkEndpoint "0123456789a" "" "" "" "" "" (mkAddr false "")
             (mkAddr false "") "" false (mkRWMutex 0 false) Alive))
  = "0123456789".
Proof. reflexivity. Qed.

(** A legacy endpoint with every identifier but IPv6 set: seven keys. *)
Example legacy_endpoint_identifiers :
  IdentifiersLocked
    (mkEndpoint "0123456789abcdef" "" "web" "d1" "default" "web-0"
       (mkAddr true "10.0.0.7") (mkAddr false "invalid IP") "" false
       (mkRWMutex 0 false) Alive)
  = {[ id.CNIAttachmentIdPrefix := "0123456789abcdef";
       id.ContainerIdPrefix := "0123456789abcdef";
       id.DockerEndpointPrefix := "d1";
       id.IPv4Prefix := "10.0.0.7";
       id.ContainerNamePrefix := "web";
       id.PodNamePrefix := "default/web-0";
       id.CEPNamePrefix := "default/web-0" ]}.
Proof. vm_compute. reflexivity. Qed.

(** An endpoint with no identifier at all still has the two namespaced
    names, which consist of the separator alone. *)
Example blank_endpoint_identifiers :
  IdentifiersLocked
    (mkEndpoint "" "" "" "" "" "" (mkAddr false "") (mkAddr false "") ""
       false (mkRWMutex 0 false) Alive)
  = {[ id.PodNamePrefix := "/"; id.CEPNamePrefix := "/" ]}.
Proof. vm_compute. reflexivity. Qed.

(** The liveness gate on a deleted endpoint, and on a live one. *)
Example Identifiers_on_deleted_endpoint :
  Identifiers
    (mkEndpoint "0123456789abcdef" "eth0" "" "" "ns1" "pod1"
       (mkAddr false "") (mkAddr false "") "" true (mkRWMutex 0 false)
       NotAlive)
  = ((None, Some ErrNotAlive),
     mkEndpoint "0123456789abcdef" "eth0" "" "" "ns1" "pod1"
       (mkAddr false "") (mkAddr false "") "" true (mkRWMutex 0 false)
       NotAlive).
Proof. reflexivity. Qed.

Example SetCiliumEndpointUID_then_Get :
  fst (GetCiliumEndpointUID
         (SetCiliumEndpointUID "uid-1"
            (mkEndpoint "" "" "" "" "" "" (mkAddr false "") (mkAddr false "")
               "" false (mkRWMutex 0 false) Alive)))
  = "uid-1".
Proof. reflexivity. Qed.

(** ** Facts about the aggregate map *)

(** Looking up a key after one guarded insertion. *)
Lemma lookup_insert_if (b : bool) (k k' : id.PrefixType) (v : string)
    (m : id.Identifiers) :
  (if b then <[k := v]> m else m) !! k' =
  if b && bool_decide (k = k') then Some v else m !! k'.
Proof.
  destruct b; simpl; [|reflexivity].
  case_bool_decide as Hk.
  - subst. apply lookup_insert_eq.
  - now apply lookup_insert_ne.
Qed.

(** Every namespace of the aggregate map is decided by its own rule and
    carries its own derived value. *)
Lemma IdentifiersLocked_lookup (e : Endpoint) (p : id.PrefixType) :
  IdentifiersLocked e !! p =
  if inclusion_rule e p then Some (derived_value e p) else None.
Proof.
  unfold IdentifiersLocked. cbv zeta.
  rewrite !lookup_insert_if, lookup_empty.
  destruct p; simpl inclusion_rule; simpl derived_value;
    repeat (rewrite bool_decide_eq_false_2 by discriminate);
    rewrite bool_decide_eq_true_2 by reflexivity;
    rewrite ?andb_false_r, ?andb_true_r.
  all: repeat match goal with
       | |- context [if ?b then _ else _] => destruct b eqn:?
       end; try reflexivity; try discriminate.
Qed.

Lemma IdentifiersLocked_is_Some (e : Endpoint) (p : id.PrefixType) :
  is_Some (IdentifiersLocked e !! p) <-> inclusion_rule e p = true.
Proof.
  rewrite IdentifiersLocked_lookup.
  destruct (inclusion_rule e p); split; intros H.
  - reflexivity.
  - eauto.
  - now destruct H.
  - discriminate.
Qed.

(** The legacy gate [!e.disableLegacyIdentifiers && s != ""]. *)
Lemma legacy_gate_iff (d : bool) (s : string) :
  negb d && nonempty s = true <-> d = false /\ s <> "".
Proof.
  rewrite andb_true_iff, negb_true_iff, nonempty_true_iff. reflexivity.
Qed.

Lemma all_prefixes_complete (p : id.PrefixType) : p ∈ id.all_prefixes.
Proof. unfold id.all_prefixes. destruct p; set_solver. Qed.

(** ** The aggregate identifier map *)

(** C1: for every field snapshot, the map returned by IdentifiersLocked
    holds a key exactly when that key's inclusion rule is true:
    CNIAttachmentId iff the CNI attachment ID is non-empty, ContainerId iff
    legacy identifiers are not disabled and containerID is non-empty,
    DockerEndpoint iff dockerEndpointID is non-empty, IPv4 and IPv6 iff
    the address is valid, ContainerName iff legacy identifiers are not
    disabled and containerName is non-empty, PodName iff legacy
    identifiers are not disabled and the namespaced pod name is non-empty,
    CEPName iff the namespaced CEP name is non-empty.  The eight prefixes
    are all the keys there are, and each key present carries the value
    derived for it. *)
Theorem IdentifiersLocked_keys_iff_rules (e : Endpoint) :
  let refs := IdentifiersLocked e in
  (is_Some (refs !! id.CNIAttachmentIdPrefix)
     <-> getCNIAttachmentIDLocked e <> "") /\
  (is_Some (refs !! id.ContainerIdPrefix)
     <-> disableLegacyIdentifiers e = false /\ containerID e <> "") /\
  (is_Some (refs !! id.DockerEndpointPrefix) <-> dockerEndpointID e <> "") /\
  (is_Some (refs !! id.IPv4Prefix) <-> Addr_IsValid (IPv4 e) = true) /\
  (is_Some (refs !! id.IPv6Prefix) <-> Addr_IsValid (IPv6 e) = true) /\
  (is_Some (refs !! id.ContainerNamePrefix)
     <-> disableLegacyIdentifiers e = false /\ containerName e <> "") /\
  (is_Some (refs !! id.PodNamePrefix)
     <-> disableLegacyIdentifiers e = false
         /\ GetK8sNamespaceAndPodName e <> "") /\
  (is_Some (refs !! id.CEPNamePrefix)
     <-> GetK8sNamespaceAndCEPName e <> "") /\
  (forall p : id.PrefixType, p ∈ id.all_prefixes) /\
  (forall p : id.PrefixType,
     refs !! p =
     if inclusion_rule e p then Some (derived_value e p) else None).
Proof.
  cbv zeta. repeat match goal with |- _ /\ _ => split end.
  1-8: rewrite IdentifiersLocked_is_Some; simpl inclusion_rule.
  - exact (nonempty_true_iff _).
  - exact (legacy_gate_iff _ _).
  - exact (nonempty_true_iff _).
  - reflexivity.
  - reflexivity.
  - exact (legacy_gate_iff _ _).
  - exact (legacy_gate_iff _ _).
  - exact (nonempty_true_iff _).
  - apply all_prefixes_complete.
  - apply IdentifiersLocked_lookup.
Qed.

(** C3: when legacy identifiers are disabled, the map returned by
    IdentifiersLocked has none of the keys ContainerId, ContainerName and
    PodName, whatever containerID, containerName, K8sNamespace and
    K8sPodName hold. *)
Theorem IdentifiersLocked_no_legacy_keys (e : Endpoint) :
  disableLegacyIdentifiers e = true ->
  IdentifiersLocked e !! id.ContainerIdPrefix = None /\
  IdentifiersLocked e !! id.ContainerNamePrefix = None /\
  IdentifiersLocked e !! id.PodNamePrefix = None.
Proof.
  intros Hd. rewrite !IdentifiersLocked_lookup. simpl.
  rewrite Hd. simpl. repeat split.
Qed.

Lemma IdentifiersLocked_no_legacy_keys_witness :
  let e := mkEndpoint "0123456789abcdef" "eth0" "web" "dock" "ns1" "pod1"
             (mkAddr true "10.0.0.1") (mkAddr false "") "" true
             (mkRWMutex 0 false) Alive in
  disableLegacyIdentifiers e = true /\
  IdentifiersLocked e !! id.ContainerIdPrefix = None /\
  IdentifiersLocked e !! id.ContainerNamePrefix = None /\
  IdentifiersLocked e !! id.PodNamePrefix = None.
Proof.
  cbv zeta. split; [reflexivity|].
  apply IdentifiersLocked_no_legacy_keys. reflexivity.
Defined.

(** C7: for containerID "abcdefghijklmnop", containerIfName "eth0",
    K8sNamespace "ns1", K8sPodName "pod1", legacy identifiers disabled and
    every other identifier field empty or invalid, the identifier map is
    exactly CNIAttachmentId -> "abcdefghijklmnop:eth0" and CEPName ->
    "ns1/pod1-eth0", and the short container ID is "abcdefghij". *)
Theorem example_identifiers (uid : string) (m : RWMutex) (s : Liveness)
    (txt4 txt6 : string) :
  let e := example_endpoint uid m s txt4 txt6 in
  IdentifiersLocked e =
    {[ id.CNIAttachmentIdPrefix := "abcdefghijklmnop:eth0";
       id.CEPNamePrefix := "ns1/pod1-eth0" ]} /\
  getShortContainerIDLocked (Some e) = "abcdefghij" /\
  fst (GetShortContainerID (Some e)) = "abcdefghij".
Proof.
  cbv zeta. split; [|split; reflexivity].
  apply map_eq. intros p. rewrite IdentifiersLocked_lookup.
  destruct p; reflexivity.
Qed.

(** ** The single-value derivations *)

(** C2: GetK8sCEPName returns K8sPodName + "-" + containerIfName if and
    only if legacy identifiers are disabled and both K8sPodName and
    containerIfName are non-empty; in every other case it returns
    K8sPodName unchanged. *)
Theorem GetK8sCEPName_joined_iff (e : Endpoint) :
  let joined := K8sPodName e ++ "-" ++ containerIfName e in
  let gate := disableLegacyIdentifiers e = true
              /\ K8sPodName e <> "" /\ containerIfName e <> "" in
  (GetK8sCEPName e = joined <-> gate) /\
  (gate /\ GetK8sCEPName e = joined
   \/ ~ gate /\ GetK8sCEPName e = K8sPodName e).
Proof.
  cbv zeta. unfold GetK8sCEPName.
  pose proof (append_nonempty_neq (K8sPodName e)
                ("-" ++ containerIfName e) eq_refl) as Hne.
  destruct (disableLegacyIdentifiers e); simpl.
  2: { split; [split; [intros H; now symmetry in H | intros [H _]; discriminate]|].
       right. split; [intros [H _]; discriminate | reflexivity]. }
  destruct (nonempty (K8sPodName e)) eqn:Hp; simpl.
  2: { apply nonempty_false_iff in Hp.
       split; [split; [intros H; now symmetry in H | intros (_ & H & _); contradiction]|].
       right. split; [intros (_ & H & _); contradiction | reflexivity]. }
  destruct (nonempty (containerIfName e)) eqn:Hi; simpl.
  2: { apply nonempty_false_iff in Hi.
       split; [split; [intros H; now symmetry in H | intros (_ & _ & H); contradiction]|].
       right. split; [intros (_ & _ & H); contradiction | reflexivity]. }
  apply nonempty_true_iff in Hp, Hi.
  split; [split; auto|]. left. auto.
Qed.

(** C4: the short container ID returned by GetShortContainerID is
    containerID itself when its length is at most 10, and exactly the
    first 10 bytes of containerID when its length exceeds 10. *)
Theorem short_container_id_is_prefix (e : Endpoint) :
  let cid := containerID e in
  let short := fst (GetShortContainerID (Some e)) in
  short = getShortContainerIDLocked (Some e) /\
  (len cid <= 10 /\ short = cid
   \/ 10 < len cid /\ len short = 10 /\ exists rest, cid = short ++ rest).
Proof.
  cbv zeta. split; [reflexivity|].
  change (fst (GetShortContainerID (Some e)))
    with (getShortContainerIDLocked (Some e)).
  unfold getShortContainerIDLocked. cbv zeta.
  destruct (Nat.leb_spec (len (containerID e)) 10) as [Hle|Hgt].
  - left. auto.
  - right. split; [exact Hgt|].
    apply slice_to_split. lia.
Qed.

(** C5: the CNI attachment ID, locked or unlocked, is containerID when
    containerIfName is the empty string and containerID + ":" +
    containerIfName otherwise. *)
Theorem cni_attachment_id_cases (e : Endpoint) :
  fst (GetCNIAttachmentID e) = getCNIAttachmentIDLocked e /\
  (containerIfName e = "" /\ getCNIAttachmentIDLocked e = containerID e
   \/ containerIfName e <> ""
      /\ getCNIAttachmentIDLocked e
         = containerID e ++ ":" ++ containerIfName e).
Proof.
  split; [reflexivity|].
  unfold getCNIAttachmentIDLocked.
  destruct (nonempty (containerIfName e)) eqn:Hi.
  - right. apply nonempty_true_iff in Hi. auto.
  - left. apply nonempty_false_iff in Hi. auto.
Qed.

(** C9: HumanString returns the namespaced CEP name, K8sNamespace + "/" +
    CEP name, when that string is non-empty, and the endpoint's string ID
    otherwise. *)
Theorem HumanString_cases (StringID : Endpoint -> string) (e : Endpoint) :
  let cep := K8sNamespace e ++ "/" ++ GetK8sCEPName e in
  GetK8sNamespaceAndCEPName e = cep /\
  (cep <> "" /\ HumanString StringID e = cep
   \/ cep = "" /\ HumanString StringID e = StringID e).
Proof.
  cbv zeta. split; [reflexivity|].
  unfold HumanString, GetK8sNamespaceAndCEPName. cbv zeta.
  destruct (nonempty (K8sNamespace e ++ "/" ++ GetK8sCEPName e)) eqn:Hc.
  - left. apply nonempty_true_iff in Hc. auto.
  - right. apply nonempty_false_iff in Hc. auto.
Qed.

(** C10: GetK8sNamespaceAndPodName and GetK8sNamespaceAndCEPName always
    contain the separator "/" and so are never empty, even when
    K8sNamespace and K8sPodName are both empty; hence every map produced
    by IdentifiersLocked has the CEPName key, has the PodName key whenever
    legacy identifiers are not disabled, and HumanString never falls back
    to the string ID. *)
Theorem namespaced_names_never_empty (StringID : Endpoint -> string)
    (e : Endpoint) :
  (exists name, GetK8sNamespaceAndPodName e = K8sNamespace e ++ "/" ++ name) /\
  (exists name, GetK8sNamespaceAndCEPName e = K8sNamespace e ++ "/" ++ name) /\
  GetK8sNamespaceAndPodName e <> "" /\
  GetK8sNamespaceAndCEPName e <> "" /\
  (K8sNamespace e = "" /\ K8sPodName e = "" ->
   GetK8sNamespaceAndPodName e = "/" /\ GetK8sNamespaceAndCEPName e = "/") /\
  IdentifiersLocked e !! id.CEPNamePrefix
    = Some (GetK8sNamespaceAndCEPName e) /\
  (disableLegacyIdentifiers e = false ->
   IdentifiersLocked e !! id.PodNamePrefix
     = Some (GetK8sNamespaceAndPodName e)) /\
  HumanString StringID e = GetK8sNamespaceAndCEPName e.
Proof.
  assert (Hpod : nonempty (GetK8sNamespaceAndPodName e) = true)
    by (apply nonempty_append_r; reflexivity).
  assert (Hcep : nonempty (GetK8sNamespaceAndCEPName e) = true)
    by (apply nonempty_append_r; reflexivity).
  repeat match goal with |- _ /\ _ => split end.
  - eexists; reflexivity.
  - eexists; reflexivity.
  - now apply nonempty_true_iff.
  - now apply nonempty_true_iff.
  - intros [Hns Hp].
    unfold GetK8sNamespaceAndPodName, GetK8sNamespaceAndCEPName, GetK8sCEPName.
    rewrite Hns, Hp. simpl. rewrite andb_false_r. split; reflexivity.
  - rewrite IdentifiersLocked_lookup. simpl. now rewrite Hcep.
  - intros Hd. rewrite IdentifiersLocked_lookup. simpl.
    now rewrite Hd, Hpod.
  - unfold HumanString. cbv zeta. now rewrite Hcep.
Qed.

(** ** Failure *)

(** Apart from the liveness-gated accessor, every operation called on a
    valid receiver returns, with a nil error. *)
Lemma call_returns (StringID : Endpoint -> string) (op : Operation)
    (e : Endpoint) :
  op <> CallIdentifiers ->
  exists v e', call StringID op (Some e) = Returned v None (Some e').
Proof.
  intros Hop. destruct op; try contradiction; simpl; eauto.
Qed.

(** What the liveness-gated accessor does in either liveness state. *)
Lemma Identifiers_not_alive (e : Endpoint) :
  state e = NotAlive -> Identifiers e = ((None, Some ErrNotAlive), e).
Proof. intros Hs. unfold Identifiers, rlockAlive. now rewrite Hs. Qed.

Lemma Identifiers_alive (e : Endpoint) :
  state e = Alive ->
  Identifiers e = ((Some (IdentifiersLocked e), None), e).
Proof.
  intros Hs. unfold Identifiers, rlockAlive. rewrite Hs.
  now rewrite runlock_unconditionalRLock.
Qed.

(** C6: the unlocked accessor Identifiers is the only operation that can
    fail.  It returns the EndpointNotAlive error exactly when the liveness
    gate rlockAlive fails, which is exactly when the endpoint is not
    alive; it then returns the nil map, whatever the identifier fields
    hold, and leaves the endpoint as it found it.  On an alive endpoint it
    returns the map of IdentifiersLocked with a nil error and has released
    the lock. *)
Theorem Identifiers_fails_iff_not_alive (StringID : Endpoint -> string)
    (e : Endpoint) :
  (snd (fst (Identifiers e)) = Some ErrNotAlive
     <-> fst (rlockAlive e) = Some ErrNotAlive) /\
  (snd (fst (Identifiers e)) = Some ErrNotAlive <-> state e = NotAlive) /\
  (state e = NotAlive /\ Identifiers e = ((None, Some ErrNotAlive), e)
   \/ state e = Alive
      /\ Identifiers e = ((Some (IdentifiersLocked e), None), e)) /\
  (forall e' : Endpoint,
     state e = NotAlive -> state e' = NotAlive ->
     fst (Identifiers e') = fst (Identifiers e)) /\
  (forall op : Operation,
     fails (call StringID op (Some e)) = true ->
     op = CallIdentifiers /\ state e = NotAlive).
Proof.
  repeat match goal with |- _ /\ _ => split end.
  - unfold Identifiers, rlockAlive. destruct (state e); simpl; reflexivity.
  - destruct (state e) eqn:Hs.
    + rewrite Identifiers_alive by assumption. simpl. split; discriminate.
    + rewrite Identifiers_not_alive by assumption. simpl. split; reflexivity.
  - destruct (state e) eqn:Hs.
    + right. split; [reflexivity | now apply Identifiers_alive].
    + left. split; [reflexivity | now apply Identifiers_not_alive].
  - intros e' Hs Hs'. now rewrite !Identifiers_not_alive.
  - intros op Hf.
    destruct (decide (op = CallIdentifiers)) as [->|Hop].
    + split; [reflexivity|]. simpl in Hf.
      destruct (state e) eqn:Hs; [|reflexivity].
      rewrite Identifiers_alive in Hf by assumption. discriminate.
    + destruct (call_returns StringID op e Hop) as (v & e' & Hc).
      rewrite Hc in Hf. discriminate.
Qed.


(** * Further properties of the accessors *)

(** ** More facts about Go strings *)

Lemma append_assoc (a b c : string) : (a ++ b) ++ c = a ++ (b ++ c).
Proof.
  induction a as [|x a IH]; [reflexivity|].
  rewrite !append_String. now rewrite IH.
Qed.

Lemma append_empty_r (a : string) : a ++ "" = a.
Proof.
  induction a as [|x a IH]; [reflexivity|].
  rewrite append_String. now rewrite IH.
Qed.

Lemma prefix_append (a b : string) : String.prefix a (a ++ b) = true.
Proof.
  induction a as [|x a IH]; [now destruct b|].
  rewrite append_String. simpl.
  destruct (Ascii.ascii_dec x x) as [_|Hne]; [exact IH | contradiction].
Qed.

Lemma prefix_refl (a : string) : String.prefix a a = true.
Proof. rewrite <- (append_empty_r a) at 2. apply prefix_append. Qed.

Lemma append_eq_empty (a b : string) : a ++ b = "" <-> a = "" /\ b = "".
Proof.
  split.
  - destruct a; [rewrite append_empty; auto | rewrite append_String; discriminate].
  - intros [-> ->]. reflexivity.
Qed.

(** A string free of the byte [c] is not of the form [x ++ c :: y]. *)
Lemma contains_byte_append (c : ascii) (x y : string) :
  contains_byte c (x ++ String c y) = true.
Proof.
  induction x as [|d x IH].
  - rewrite append_empty. simpl. now rewrite Ascii.eqb_refl.
  - rewrite append_String. simpl. rewrite IH. apply orb_true_r.
Qed.

(** Splitting at the first occurrence of a byte is unambiguous. *)
Lemma split_at_first_byte (c : ascii) : forall a b x y : string,
  contains_byte c a = false -> contains_byte c b = false ->
  a ++ String c x = b ++ String c y -> a = b /\ x = y.
Proof.
  induction a as [|d a IH]; intros [|d' b] x y Ha Hb Heq.
  - rewrite !append_empty in Heq. injection Heq as ->. auto.
  - rewrite append_empty, append_String in Heq. injection Heq as <- _.
    simpl in Hb. rewrite Ascii.eqb_refl in Hb. discriminate.
  - rewrite append_empty, append_String in Heq. injection Heq as -> _.
    simpl in Ha. rewrite Ascii.eqb_refl in Ha. discriminate.
  - rewrite !append_String in Heq. injection Heq as -> Heq.
    simpl in Ha, Hb.
    apply orb_false_iff in Ha as [_ Ha]. apply orb_false_iff in Hb as [_ Hb].
    destruct (IH b x y Ha Hb Heq) as [-> ->]. auto.
Qed.

(** ** The short container ID *)

(** X1: the short container ID has the length of containerID capped at 10,
    is a prefix of containerID, is empty only for an empty containerID,
    and shortening is idempotent: an endpoint whose containerID is
    already a short ID gets that same string back. *)
Theorem short_container_id_shape (e : Endpoint) :
  let short := getShortContainerIDLocked (Some e) in
  len short = Nat.min (len (containerID e)) 10 /\
  String.prefix short (containerID e) = true /\
  (short = "" <-> containerID e = "") /\
  (forall e' : Endpoint,
     containerID e' = short -> getShortContainerIDLocked (Some e') = short).
Proof.
  cbv zeta.
  assert (Hshape :
    len (getShortContainerIDLocked (Some e)) = Nat.min (len (containerID e)) 10
    /\ exists rest,
         containerID e = getShortContainerIDLocked (Some e) ++ rest).
  { unfold getShortContainerIDLocked. cbv zeta.
    destruct (Nat.leb_spec (len (containerID e)) 10) as [Hle|Hgt].
    - split; [lia|]. exists "". now rewrite append_empty_r.
    - destruct (slice_to_split 10 (containerID e)) as [Hl Hr]; [lia|].
      split; [lia | exact Hr]. }
  destruct Hshape as [Hlen [rest Hrest]].
  repeat match goal with |- _ /\ _ => split end.
  - exact Hlen.
  - pose proof (prefix_append (getShortContainerIDLocked (Some e)) rest)
      as Hpre.
    now rewrite <- Hrest in Hpre.
  - split.
    + intros Hs. rewrite Hs in Hlen.
      destruct (containerID e); [reflexivity | simpl in Hlen; lia].
    + intros Hc. unfold getShortContainerIDLocked. now rewrite Hc.
  - intros e' He'. unfold getShortContainerIDLocked at 1. cbv zeta.
    rewrite He'.
    destruct (Nat.leb_spec (len (getShortContainerIDLocked (Some e))) 10)
      as [_|Hgt]; [reflexivity | lia].
Qed.

(** ** The CNI attachment ID *)

Lemma getCNIAttachmentIDLocked_empty_iff (e : Endpoint) :
  getCNIAttachmentIDLocked e = ""
  <-> containerID e = "" /\ containerIfName e = "".
Proof.
  unfold getCNIAttachmentIDLocked.
  destruct (nonempty (containerIfName e)) eqn:Hi.
  - apply nonempty_true_iff in Hi. rewrite append_eq_empty. split.
    + intros [_ H]. rewrite append_String in H. discriminate.
    + intros [_ H]. contradiction.
  - apply nonempty_false_iff in Hi. rewrite Hi. tauto.
Qed.

(** X2: the CNI attachment ID is empty only when containerID and
    containerIfName are both empty, so the CNIAttachmentId key is in the
    map as soon as either of them is set, with or without legacy
    identifiers. *)
Theorem cni_attachment_key_present_iff (e : Endpoint) :
  (getCNIAttachmentIDLocked e = ""
     <-> containerID e = "" /\ containerIfName e = "") /\
  (is_Some (IdentifiersLocked e !! id.CNIAttachmentIdPrefix)
     <-> containerID e <> "" \/ containerIfName e <> "").
Proof.
  pose proof (getCNIAttachmentIDLocked_empty_iff e) as Hempty.
  split; [exact Hempty|].
  rewrite IdentifiersLocked_is_Some. simpl inclusion_rule.
  rewrite nonempty_true_iff, Hempty.
  destruct (containerID e), (containerIfName e); split; intros H;
    try (left; discriminate); try (right; discriminate);
    try (intros [? ?]; discriminate).
  - exfalso. apply H. auto.
  - destruct H as [H|H]; contradiction.
Qed.

(** X3: whatever the legacy flag says, the CNI attachment ID begins with the
    raw containerID; whenever the ContainerId key is in the map, so is
    the CNIAttachmentId key, and its value begins with the ContainerId
    value. *)
Theorem cni_attachment_id_extends_container_id (e : Endpoint) :
  String.prefix (containerID e) (getCNIAttachmentIDLocked e) = true /\
  (forall v : string,
     IdentifiersLocked e !! id.ContainerIdPrefix = Some v ->
     exists w : string,
       IdentifiersLocked e !! id.CNIAttachmentIdPrefix = Some w
       /\ String.prefix v w = true).
Proof.
  assert (Hpre : String.prefix (containerID e) (getCNIAttachmentIDLocked e)
                 = true).
  { unfold getCNIAttachmentIDLocked.
    destruct (nonempty (containerIfName e));
      [apply prefix_append | apply prefix_refl]. }
  split; [exact Hpre|].
  intros v Hv. rewrite IdentifiersLocked_lookup in Hv. simpl in Hv.
  destruct (negb (disableLegacyIdentifiers e) && nonempty (containerID e))
    eqn:Hg; [|discriminate].
  injection Hv as <-. apply legacy_gate_iff in Hg as [_ Hc].
  exists (getCNIAttachmentIDLocked e). split; [|exact Hpre].
  rewrite IdentifiersLocked_lookup. simpl.
  assert (Hn : nonempty (getCNIAttachmentIDLocked e) = true).
  { apply nonempty_true_iff. intros H.
    apply getCNIAttachmentIDLocked_empty_iff in H. tauto. }
  now rewrite Hn.
Qed.

(** X4: for container IDs that contain no ":" the CNI attachment ID
    identifies the attachment: two endpoints with the same CNI attachment
    ID have the same containerID and the same containerIfName. *)
Theorem cni_attachment_id_injective (e1 e2 : Endpoint) :
  contains_byte ":" (containerID e1) = false ->
  contains_byte ":" (containerID e2) = false ->
  getCNIAttachmentIDLocked e1 = getCNIAttachmentIDLocked e2 ->
  containerID e1 = containerID e2 /\ containerIfName e1 = containerIfName e2.
Proof.
  intros H1 H2. unfold getCNIAttachmentIDLocked.
  destruct (nonempty (containerIfName e1)) eqn:Hi1;
    destruct (nonempty (containerIfName e2)) eqn:Hi2; intros Heq.
  - rewrite !append_String, !append_empty in Heq.
    now apply (split_at_first_byte ":"%char) in Heq.
  - rewrite append_String, append_empty in Heq. rewrite <- Heq in H2.
    rewrite contains_byte_append in H2. discriminate.
  - rewrite append_String, append_empty in Heq. rewrite Heq in H1.
    rewrite contains_byte_append in H1. discriminate.
  - apply nonempty_false_iff in Hi1, Hi2. rewrite Hi1, Hi2. auto.
Qed.

Lemma cni_attachment_id_injective_witness :
  let e1 := mkEndpoint "0123456789abcdef" "eth0" "" "" "ns1" "pod1"
              (mkAddr false "") (mkAddr false "") "u1" true
              (mkRWMutex 0 false) Alive in
  let e2 := mkEndpoint "0123456789abcdef" "eth0" "web" "d1" "ns2" "pod2"
              (mkAddr true "10.0.0.1") (mkAddr false "") "u2" false
              (mkRWMutex 2 false) NotAlive in
  contains_byte ":" (containerID e1) = false /\
  contains_byte ":" (containerID e2) = false /\
  getCNIAttachmentIDLocked e1 = getCNIAttachmentIDLocked e2 /\
  containerID e1 = containerID e2 /\ containerIfName e1 = containerIfName e2.
Proof.
  cbv zeta. split; [reflexivity|]. split; [reflexivity|].
  split; [reflexivity|].
  apply cni_attachment_id_injective; reflexivity.
Defined.

(** X5: once a containerID may contain ":" the CNI attachment ID is
    ambiguous: an
    attachment of container [c] through interface [i] and a container
    named [c ++ ":" ++ i] without interface name share their CNI
    attachment ID, and with it their CNIAttachmentId entry. *)
Theorem cni_attachment_id_collision (e1 e2 : Endpoint) :
  containerIfName e1 <> "" ->
  containerIfName e2 = "" ->
  containerID e2 = containerID e1 ++ ":" ++ containerIfName e1 ->
  getCNIAttachmentIDLocked e1 = getCNIAttachmentIDLocked e2 /\
  IdentifiersLocked e1 !! id.CNIAttachmentIdPrefix
    = IdentifiersLocked e2 !! id.CNIAttachmentIdPrefix.
Proof.
  intros Hi1 Hi2 Hc.
  assert (Heq : getCNIAttachmentIDLocked e1 = getCNIAttachmentIDLocked e2).
  { unfold getCNIAttachmentIDLocked.
    apply nonempty_true_iff in Hi1. rewrite Hi1, Hi2. simpl. now rewrite Hc. }
  split; [exact Heq|].
  rewrite !IdentifiersLocked_lookup. simpl. now rewrite Heq.
Qed.

Lemma cni_attachment_id_collision_witness :
  let e1 := mkEndpoint "abc" "eth0" "" "" "" "" (mkAddr false "")
              (mkAddr false "") "" true (mkRWMutex 0 false) Alive in
  let e2 := mkEndpoint "abc:eth0" "" "" "" "" "" (mkAddr false "")
              (mkAddr false "") "" true (mkRWMutex 0 false) Alive in
  containerID e1 <> containerID e2 /\
  getCNIAttachmentIDLocked e1 = getCNIAttachmentIDLocked e2 /\
  IdentifiersLocked e1 !! id.CNIAttachmentIdPrefix
    = IdentifiersLocked e2 !! id.CNIAttachmentIdPrefix.
Proof.
  cbv zeta. split; [discriminate|].
  apply cni_attachment_id_collision; [discriminate | reflexivity | reflexivity].
Defined.

(** ** The CEP name *)

Lemma GetK8sCEPName_split (e : Endpoint) :
  exists suffix : string,
    GetK8sCEPName e = K8sPodName e ++ suffix
    /\ (suffix = "" \/ suffix = "-" ++ containerIfName e).
Proof.
  unfold GetK8sCEPName.
  destruct (disableLegacyIdentifiers e && nonempty (K8sPodName e)
            && nonempty (containerIfName e)).
  - exists ("-" ++ containerIfName e). auto.
  - exists "". rewrite append_empty_r. auto.
Qed.

(** X6: GetK8sCEPName returns the empty string exactly when the endpoint has
    no pod name, as its comment promises. *)
Theorem GetK8sCEPName_empty_iff (e : Endpoint) :
  (GetK8sCEPName e = "" <-> K8sPodName e = "") /\
  (GetK8sCEPName e = "" ->
   GetK8sNamespaceAndCEPName e = K8sNamespace e ++ "/").
Proof.
  assert (Hiff : GetK8sCEPName e = "" <-> K8sPodName e = "").
  { unfold GetK8sCEPName.
    destruct (disableLegacyIdentifiers e); simpl; [|tauto].
    destruct (nonempty (K8sPodName e)) eqn:Hp; simpl; [|tauto].
    destruct (nonempty (containerIfName e)); [|tauto].
    apply nonempty_true_iff in Hp. rewrite append_eq_empty. tauto. }
  split; [exact Hiff|].
  intros H. unfold GetK8sNamespaceAndCEPName. now rewrite H.
Qed.

(** X7: the CEP name always begins with the pod name, and the namespaced CEP
    name with the namespaced pod name: the interface name is only ever
    appended. *)
Theorem cep_name_extends_pod_name (e : Endpoint) :
  String.prefix (K8sPodName e) (GetK8sCEPName e) = true /\
  String.prefix (GetK8sNamespaceAndPodName e) (GetK8sNamespaceAndCEPName e)
    = true /\
  len (GetK8sNamespaceAndPodName e) <= len (GetK8sNamespaceAndCEPName e).
Proof.
  destruct (GetK8sCEPName_split e) as (suffix & Hs & _).
  unfold GetK8sNamespaceAndCEPName, GetK8sNamespaceAndPodName.
  rewrite Hs.
  replace (K8sNamespace e ++ "/" ++ K8sPodName e ++ suffix)
    with ((K8sNamespace e ++ "/" ++ K8sPodName e) ++ suffix)
    by now rewrite !append_assoc.
  repeat match goal with |- _ /\ _ => split end.
  - apply prefix_append.
  - apply prefix_append.
  - rewrite (len_append _ suffix). lia.
Qed.

(** X8: the CEP name is ambiguous: with legacy identifiers disabled, a pod
    [p] attached through interface [i] and a pod named [p ++ "-" ++ i]
    without interface name, in the same namespace, get the same CEP name
    and the same CEPName entry. *)
Theorem cep_name_collision (e1 e2 : Endpoint) :
  disableLegacyIdentifiers e1 = true ->
  K8sPodName e1 <> "" ->
  containerIfName e1 <> "" ->
  containerIfName e2 = "" ->
  K8sPodName e2 = K8sPodName e1 ++ "-" ++ containerIfName e1 ->
  K8sNamespace e2 = K8sNamespace e1 ->
  GetK8sCEPName e1 = GetK8sCEPName e2 /\
  IdentifiersLocked e1 !! id.CEPNamePrefix
    = IdentifiersLocked e2 !! id.CEPNamePrefix.
Proof.
  intros Hd Hp Hi Hi2 Hp2 Hns.
  apply nonempty_true_iff in Hp, Hi.
  assert (Heq : GetK8sCEPName e1 = GetK8sCEPName e2).
  { unfold GetK8sCEPName. rewrite Hd, Hp, Hi, Hi2. simpl.
    rewrite andb_false_r. now rewrite Hp2. }
  split; [exact Heq|].
  rewrite !IdentifiersLocked_lookup. simpl.
  unfold GetK8sNamespaceAndCEPName. now rewrite Heq, Hns.
Qed.

Lemma cep_name_collision_witness :
  let e1 := mkEndpoint "c1" "eth0" "" "" "ns1" "web" (mkAddr false "")
              (mkAddr false "") "" true (mkRWMutex 0 false) Alive in
  let e2 := mkEndpoint "c2" "" "" "" "ns1" "web-eth0" (mkAddr false "")
              (mkAddr false "") "" true (mkRWMutex 0 false) Alive in
  K8sPodName e1 <> K8sPodName e2 /\
  GetK8sCEPName e1 = GetK8sCEPName e2 /\
  IdentifiersLocked e1 !! id.CEPNamePrefix
    = IdentifiersLocked e2 !! id.CEPNamePrefix.
Proof.
  cbv zeta. split; [discriminate|].
  apply cep_name_collision;
    [reflexivity | discriminate | discriminate
     | reflexivity | reflexivity | reflexivity].
Defined.

(** X9: while an endpoint has not opted out of legacy identifiers its CEP
    name is its pod name, so the PodName and CEPName entries of the map
    are both present and carry the same string. *)
Theorem legacy_cep_entry_is_pod_entry (e : Endpoint) :
  disableLegacyIdentifiers e = false ->
  GetK8sCEPName e = GetK8sPodName e /\
  IdentifiersLocked e !! id.CEPNamePrefix
    = Some (GetK8sNamespaceAndPodName e) /\
  IdentifiersLocked e !! id.PodNamePrefix
    = Some (GetK8sNamespaceAndPodName e).
Proof.
  intros Hd.
  assert (Hcep : GetK8sCEPName e = K8sPodName e)
    by (unfold GetK8sCEPName; now rewrite Hd).
  assert (Hn : nonempty (GetK8sNamespaceAndPodName e) = true)
    by (apply nonempty_append_r; reflexivity).
  split; [exact Hcep|].
  rewrite !IdentifiersLocked_lookup. simpl.
  unfold GetK8sNamespaceAndCEPName. rewrite Hcep, Hd.
  fold (GetK8sNamespaceAndPodName e). rewrite Hn. simpl. auto.
Qed.

Lemma legacy_cep_entry_is_pod_entry_witness :
  let e := mkEndpoint "0123456789abcdef" "eth0" "web" "" "default" "web-0"
             (mkAddr false "") (mkAddr false "") "" false
             (mkRWMutex 0 false) Alive in
  disableLegacyIdentifiers e = false /\
  GetK8sCEPName e = GetK8sPodName e /\
  IdentifiersLocked e !! id.CEPNamePrefix
    = Some (GetK8sNamespaceAndPodName e) /\
  IdentifiersLocked e !! id.PodNamePrefix
    = Some (GetK8sNamespaceAndPodName e).
Proof.
  cbv zeta. split; [reflexivity|].
  apply legacy_cep_entry_is_pod_entry. reflexivity.
Defined.

(** ** Shape of the aggregate map *)

Lemma IdentifiersLocked_dom (e : Endpoint) (p : id.PrefixType) :
  p ∈ dom (IdentifiersLocked e) <-> inclusion_rule e p = true.
Proof. rewrite elem_of_dom. apply IdentifiersLocked_is_Some. Qed.

(** X10: the map never outgrows the eight slots it is created with and is
    never empty; an endpoint that opted out of legacy identifiers has at
    most five entries, one that did not has at least two. *)
Theorem IdentifiersLocked_size_bounds (e : Endpoint) :
  1 <= size (IdentifiersLocked e) <= 8 /\
  (disableLegacyIdentifiers e = true -> size (IdentifiersLocked e) <= 5) /\
  (disableLegacyIdentifiers e = false -> 2 <= size (IdentifiersLocked e)).
Proof.
  rewrite <- size_dom.
  assert (Hcep : nonempty (GetK8sNamespaceAndCEPName e) = true)
    by (apply nonempty_append_r; reflexivity).
  assert (Hpod : nonempty (GetK8sNamespaceAndPodName e) = true)
    by (apply nonempty_append_r; reflexivity).
  repeat match goal with |- _ /\ _ => split end.
  - change 1 with (size ({[id.CEPNamePrefix]} : gset id.PrefixType)).
    apply subseteq_size. intros p Hp. apply elem_of_singleton in Hp as ->.
    apply IdentifiersLocked_dom. exact Hcep.
  - change 8 with (size (list_to_set id.all_prefixes : gset id.PrefixType)).
    apply subseteq_size. intros p _. apply elem_of_list_to_set.
    apply all_prefixes_complete.
  - intros Hd.
    change 5 with
      (size (list_to_set
               [id.CNIAttachmentIdPrefix; id.DockerEndpointPrefix;
                id.IPv4Prefix; id.IPv6Prefix; id.CEPNamePrefix]
             : gset id.PrefixType)).
    apply subseteq_size. intros p Hp. apply IdentifiersLocked_dom in Hp.
    apply elem_of_list_to_set.
    destruct p; simpl in Hp; rewrite ?Hd in Hp; simpl in Hp;
      try discriminate; repeat constructor.
  - intros Hd.
    change 2 with
      (size (list_to_set [id.PodNamePrefix; id.CEPNamePrefix]
             : gset id.PrefixType)).
    apply subseteq_size. intros p Hp. apply elem_of_list_to_set in Hp.
    apply IdentifiersLocked_dom.
    apply elem_of_cons in Hp as [-> | Hp];
      [| apply list_elem_of_singleton in Hp as ->];
      simpl; rewrite ?Hd, ?Hpod, ?Hcep; reflexivity.
Qed.



(** X12: opting out of legacy identifiers only ever removes keys: the keys of
    the opted-out map are among the keys of the legacy map of the same
    endpoint, and the CNIAttachmentId, DockerEndpoint, IPv4 and IPv6
    entries are the same in both. *)
Theorem disabling_legacy_only_removes_keys (e : Endpoint) :
  let off := IdentifiersLocked (with_disableLegacyIdentifiers e true) in
  let on := IdentifiersLocked (with_disableLegacyIdentifiers e false) in
  dom off ⊆ dom on /\
  off !! id.CNIAttachmentIdPrefix = on !! id.CNIAttachmentIdPrefix /\
  off !! id.DockerEndpointPrefix = on !! id.DockerEndpointPrefix /\
  off !! id.IPv4Prefix = on !! id.IPv4Prefix /\
  off !! id.IPv6Prefix = on !! id.IPv6Prefix.
Proof.
  cbv zeta. split.
  - intros p. rewrite !IdentifiersLocked_dom.
    destruct p; simpl; try discriminate; try (intros H; exact H).
    intros _. apply nonempty_append_r. reflexivity.
  - rewrite !IdentifiersLocked_lookup. repeat split.
Qed.

(** ** The CiliumEndpoint UID and the lock *)

(** X13: reading the UID after setting it returns the value set; of two
    consecutive writes the later one wins. *)
Theorem SetCiliumEndpointUID_round_trip (uid uid' : string) (e : Endpoint) :
  fst (GetCiliumEndpointUID (SetCiliumEndpointUID uid e)) = uid /\
  SetCiliumEndpointUID uid (SetCiliumEndpointUID uid' e)
    = SetCiliumEndpointUID uid e.
Proof. split; reflexivity. Qed.

(** X14: setting the UID changes no identifier: the identifier map, the CNI
    attachment ID, the short container ID, the CEP name and the outcome
    of the liveness-gated accessor are as they were, and the endpoint is
    as alive as before. *)
Theorem SetCiliumEndpointUID_preserves_identifiers (uid : string)
    (e : Endpoint) :
  let e' := SetCiliumEndpointUID uid e in
  IdentifiersLocked e' = IdentifiersLocked e /\
  getCNIAttachmentIDLocked e' = getCNIAttachmentIDLocked e /\
  getShortContainerIDLocked (Some e') = getShortContainerIDLocked (Some e) /\
  GetK8sNamespaceAndCEPName e' = GetK8sNamespaceAndCEPName e /\
  state e' = state e /\
  fst (Identifiers e') = fst (Identifiers e).
Proof.
  cbv zeta. repeat match goal with |- _ /\ _ => split end; try reflexivity.
  destruct (state e) eqn:Hs.
  - rewrite !Identifiers_alive by assumption. reflexivity.
  - rewrite !Identifiers_not_alive by assumption. reflexivity.
Qed.

(** X15: every accessor that takes the shared lock gives it back: the endpoint
    it leaves behind is the endpoint it found, whether the call succeeded
    or, for Identifiers, was refused. *)
Theorem read_accessors_release_lock (e : Endpoint) :
  snd (GetContainerName e) = e /\
  snd (GetCNIAttachmentID e) = e /\
  snd (GetContainerID e) = e /\
  snd (GetShortContainerID (Some e)) = Some e /\
  snd (GetCiliumEndpointUID e) = e /\
  snd (Identifiers e) = e.
Proof.
  repeat match goal with |- _ /\ _ => split end;
    try apply runlock_unconditionalRLock.
  - simpl. now rewrite runlock_unconditionalRLock.
  - destruct (state e) eqn:Hs.
    + now rewrite Identifiers_alive.
    + now rewrite Identifiers_not_alive.
Qed.


